(** * mono::window (fractals/src/window.hpp)

    A shallow embedding of the GLFW window abstraction: the construction
    properties [window_props], the mirrored [data] block with its listener
    registry, the retained key observers, and every member function whose
    body is in the header.  Member functions are computations in a state
    monad over a [world] made of the backend state, the heap of key
    observers and the window object itself. *)

From Stdlib Require Import DecimalString DecimalZ DecimalPos.
From stdpp Require Import gmap strings list fin_maps.

Local Open Scope Z_scope.

(** ** Machine integers and text *)

Definition INT32_MIN : Z := - 2 ^ 31.
Definition INT32_MAX : Z := 2 ^ 31 - 1.
Definition int32 (z : Z) : Prop := INT32_MIN ≤ z ≤ INT32_MAX.

(** [std::to_string(int)]: the decimal digits, with a leading minus sign
    for a negative value. *)
Definition to_string (z : Z) : string := NilZero.string_of_int (Z.to_int z).

Definition dquote : string :=
  Eval cbv in String (Ascii.ascii_of_nat 34) EmptyString.
Definition LF : Ascii.ascii := Eval cbv in Ascii.ascii_of_nat 10.

Fixpoint chars (s : string) : list Ascii.ascii :=
  match s with
  | EmptyString => []
  | String c r => c :: chars r
  end.

(** A text is on a single line when it holds no line feed. *)
Definition single_line (s : string) : bool :=
  forallb (λ c, bool_decide (c ≠ LF)) (chars s).

(** The characters [std::to_string(int)] writes: the digits and the minus
    sign. *)
Definition numeric (c : Ascii.ascii) : bool :=
  bool_decide (c ∈ chars "-0123456789").

(** ** References to objects

    A parameter [T const& x] is bound to an object: [&x] is the storage
    address of that object, [x] its value.  Objects alive at the same time
    are stored at different addresses; an address is used again once the
    object stored there is gone, as with the temporaries and the locals of
    successive calls. *)
Record cref (T : Type) := CRef { address : N; object : T }.
Arguments CRef {T} _ _.
Arguments address {T} _.
Arguments object {T} _.

(** ** std::unordered_map *)
Section unordered_map.
Context {K : Type} `{Countable K} {V : Type}.

(** [m.insert({k, v})] keeps the element already stored under [k]. *)
Definition umap_insert (k : K) (v : V) (m : gmap K V) : gmap K V :=
  match m !! k with
  | Some _ => m
  | None => <[k := v]> m
  end.

(** [m.erase(k)]. *)
Definition umap_erase (k : K) (m : gmap K V) : gmap K V := delete k m.

(** [m[k]]: the element under [k], value-initialised first when there is
    none; the map is returned with it. *)
Definition umap_index (dflt : V) (k : K) (m : gmap K V) : V * gmap K V :=
  match m !! k with
  | Some v => (v, m)
  | None => (dflt, <[k := dflt]> m)
  end.
End unordered_map.

(** ** window_props *)
Module window_props.
Record t := mk {
  title  : string;
  width  : Z;
  height : Z;
  xpos   : Z;
  ypos   : Z
}.

(** The default member initialisers, as used by [window_props{}]. *)
Definition default : t :=
  {| title := "no title"; width := 738; height := 480;
     xpos := INT32_MIN; ypos := INT32_MIN |}.
End window_props.

(** ** state::key and ref *)
Module state.
(** Modelled from the spec: [state::key] (input.hpp) and [ref] (mono.hpp)
    are not part of the header.  A key state wraps one key code and is a
    reference-counted shared object: it lives in the heap while its use
    count is positive, and a [ref] is the address of the object, 0 being
    the null reference. *)
Record key := Key { code : Z; use_count : positive }.

Definition ref := N.
Definition null : ref := 0%N.
Abbreviation heap := (gmap N key).

(** The address a new object is stored at: not null and not in use. *)
Definition new_address (h : heap) : N := fresh ({[ null ]} ∪ dom h).

(** Modelled from the spec: [state::key::make(code)] creates one key
    state for [code], owned by the one reference it returns. *)
Definition make (k : Z) (h : heap) : ref * heap :=
  let p := new_address h in (p, <[p := Key k 1]> h).

(** Copying a [ref] shares the ownership. *)
Definition copy (p : ref) (h : heap) : heap :=
  alter (λ o, Key (code o) (use_count o + 1)) p h.

(** Destroying a [ref] gives its share up; the object is destroyed with
    its last reference. *)
Definition release (p : ref) (h : heap) : heap :=
  match h !! p with
  | Some o =>
      if decide (use_count o = 1%positive) then delete p h
      else <[p := Key (code o) (Pos.pred (use_count o))]> h
  | None => h
  end.

(** The object behind [p] is alive and wraps [k]. *)
Definition valid (k : Z) (p : ref) (h : heap) : Prop :=
  p ≠ null ∧ ∃ o, h !! p = Some o ∧ code o = k.
End state.

(** ** The backend

    The GLFW entry points the header calls, over an abstract backend state.
    Each call answers and may change the backend.  The callbacks by which
    the backend writes to the window's data block are run by the event
    pump, [poll()], whose body is not in the header, and not by these
    calls.  [double] is the type of [glfwGetTime]'s result. *)
Class GLFW (backend double : Type) := {
  glfwWindowShouldClose : N → backend → Z * backend;
  glfwSetWindowPos : N → Z → Z → backend → backend;
  glfwGetKey : N → Z → backend → Z * backend;
  glfwGetTime : backend → double * backend
}.

(** ** window *)
Module window.

(** The mirrored state [window::data]. *)
Module data.
Record t {event_type : Type} `{Countable event_type} {event_fn : Type} :=
  mk {
    title : string;
    width : Z;
    height : Z;
    buffer_width : Z;
    buffer_height : Z;
    xpos : Z;
    ypos : Z;
    events : gmap event_type (gmap N event_fn)
  }.
Global Arguments t _ {_ _} _.
End data.

Section window.
Context {event_type : Type} `{Countable event_type}.
(** [event_fn] is [std::function<void(event const&)>]. *)
Context {event_fn : Type}.
Context {backend double : Type} `{!GLFW backend double}.

Abbreviation registry := (gmap event_type (gmap N event_fn)).

(** The window object. *)
Record t := Window {
  m_window : N;
  m_keys : list state.ref;
  m_data : data.t event_type event_fn
}.

Record world := World {
  glfw : backend;
  keys : state.heap;
  self : t
}.

(** *** The monad of member functions *)
Definition M (A : Type) : Type := world → A * world.

#[local] Instance M_ret : MRet M := λ A a w, (a, w).
#[local] Instance M_bind : MBind M :=
  λ A B f m w, let (a, w1) := m w in f a w1.

Definition gets {A} (f : world → A) : M A := λ w, (f w, w).
Definition modify (f : world → world) : M unit := λ w, (tt, f w).

(** A backend call made through the handle [m_window]. *)
Definition call {A} (f : N → backend → A * backend) : M A :=
  λ w, let (a, b) := f (m_window (self w)) (glfw w) in
       (a, World b (keys w) (self w)).

Definition set_keys (h : state.heap) (w : world) : world :=
  World (glfw w) h (self w).
Definition set_m_keys (l : list state.ref) (w : world) : world :=
  World (glfw w) (keys w) (Window (m_window (self w)) l (m_data (self w))).
Definition set_events (e : registry) (w : world) : world :=
  let d := m_data (self w) in
  World (glfw w) (keys w)
    (Window (m_window (self w)) (m_keys (self w))
       (data.mk _ _ _ _ (data.title d) (data.width d) (data.height d)
          (data.buffer_width d) (data.buffer_height d)
          (data.xpos d) (data.ypos d) e)).

(** The callback the registry holds under [type] with identity [id], if
    any. *)
Definition listener (type : event_type) (id : N) (w : world)
  : option event_fn :=
  data.events (m_data (self w)) !! type ≫= (.!! id).

(** The callbacks the registry holds under [type], none when the type has
    no map. *)
Definition listeners (type : event_type) (w : world) : gmap N event_fn :=
  default ∅ (data.events (m_data (self w)) !! type).

(** The handle and the mirrored title, sizes and position. *)
Definition geometry (w : world) : N * string * (Z * Z) * (Z * Z) * (Z * Z) :=
  let d := m_data (self w) in
  (m_window (self w), data.title d,
   (data.width d, data.height d),
   (data.buffer_width d, data.buffer_height d),
   (data.xpos d, data.ypos d)).

(** The retained references are pairwise different, and each of them is
    not null and refers to a key state that is alive. *)
Definition retained_ok (w : world) : Prop :=
  NoDup (m_keys (self w))
  ∧ Forall (λ p : N, p ≠ state.null ∧ is_Some (keys w !! p))
      (m_keys (self w)).

(** *** Queries *)
Definition shouldclose : M bool :=
  r ← call glfwWindowShouldClose; mret (bool_decide (r ≠ 0)).
Definition width : M Z := gets (λ w, data.width (m_data (self w))).
Definition height : M Z := gets (λ w, data.height (m_data (self w))).
Definition buffer_width : M Z :=
  gets (λ w, data.buffer_width (m_data (self w))).
Definition buffer_height : M Z :=
  gets (λ w, data.buffer_height (m_data (self w))).
Definition xpos : M Z := gets (λ w, data.xpos (m_data (self w))).
Definition ypos : M Z := gets (λ w, data.ypos (m_data (self w))).
Definition time : M double := call (λ _, glfwGetTime).

(** *** Mutation *)
Definition set_position (x y : Z) : M unit :=
  call (λ h b, (tt, glfwSetWindowPos h x y b)).

(** *** Event subscription

    [Callable] is the template parameter and [to_fn] the conversion
    [event_fn{func}].  The identity [(std::size_t)&func] is the storage
    address of the argument; [std::size_t] has the width of a pointer. *)
Section listeners.
Context {Callable : Type} (to_fn : Callable → event_fn).

Definition add_event_listener (type : event_type) (func : cref Callable)
  : M N :=
  let id := address func in
  ev ← gets (λ w, data.events (m_data (self w)));
  (if decide (ev !! type = None) then
     let fns := umap_insert id (to_fn (object func)) ∅ in
     modify (set_events (umap_insert type fns ev))
   else
     let '(fns, ev1) := umap_index ∅ type ev in
     modify (set_events
               (<[type := umap_insert id (to_fn (object func)) fns]> ev1)));;
  mret id.

Definition remove_event_listener (type : event_type) (func : cref Callable)
  : M unit :=
  let id := address func in
  ev ← gets (λ w, data.events (m_data (self w)));
  match ev !! type with
  | Some fns => modify (set_events (<[type := umap_erase id fns]> ev))
  | None => mret tt
  end.
End listeners.

(** *** Keys *)
Definition get_key (key : Z) : M Z := call (λ h, glfwGetKey h key).

(** [push_back] moves the temporary reference into the vector;
    [return m_keys.back()] copies the stored one, the vector holding at
    least the entry just pushed. *)
Definition make_key (key : Z) : M state.ref :=
  h ← gets keys;
  let (p, h1) := state.make key h in
  modify (set_keys h1);;
  l ← gets (λ w, m_keys (self w));
  modify (set_m_keys (l ++ [p]));;
  l1 ← gets (λ w, m_keys (self w));
  let back := default state.null (last l1) in
  h2 ← gets keys;
  modify (set_keys (state.copy back h2));;
  mret back.

(** *** Diagnostics *)
Definition str : M string :=
  gets (λ w,
    let d := m_data (self w) in
    let str := "mono::window { " in
    let str := str +:+ ((("title: " +:+ dquote) +:+ data.title d)
                          +:+ (dquote +:+ ", ")) in
    let str := str +:+ (("width: " +:+ to_string (data.width d))
                          +:+ ", ") in
    let str := str +:+ (("height: " +:+ to_string (data.height d))
                          +:+ ", ") in
    let str := str +:+ (("buffer_width: "
                           +:+ to_string (data.buffer_width d)) +:+ ", ") in
    let str := str +:+ (("buffer_height: "
                           +:+ to_string (data.buffer_height d)) +:+ " }") in
    str).
End window.
End window.

(** ** Sequences of calls

    The member functions whose bodies are in the header, as a type of
    calls, and what a sequence of calls leaves behind. *)
Module calls.
Section calls.
Context {event_type : Type} `{Countable event_type} {event_fn : Type}.
Context {backend double : Type} `{!GLFW backend double}.
Context {Callable : Type} (to_fn : Callable → event_fn).

Inductive t :=
| shouldclose | width | height | buffer_width | buffer_height
| xpos | ypos | time | str
| set_position (x y : Z)
| add_event_listener (type : event_type) (func : cref Callable)
| remove_event_listener (type : event_type) (func : cref Callable)
| get_key (key : Z)
| make_key (key : Z).

Abbreviation world := (@window.world event_type _ _ event_fn backend).

Definition exec (c : t) (w : world) : world :=
  match c with
  | shouldclose => (window.shouldclose w).2
  | width => (window.width w).2
  | height => (window.height w).2
  | buffer_width => (window.buffer_width w).2
  | buffer_height => (window.buffer_height w).2
  | xpos => (window.xpos w).2
  | ypos => (window.ypos w).2
  | time => (window.time w).2
  | str => (window.str w).2
  | set_position x y => (window.set_position x y w).2
  | add_event_listener type func =>
      (window.add_event_listener to_fn type func w).2
  | remove_event_listener type func =>
      (window.remove_event_listener type func w).2
  | get_key key => (window.get_key key w).2
  | make_key key => (window.make_key key w).2
  end.

Definition run (cs : list t) (w : world) : world :=
  foldl (λ w c, exec c w) w cs.

Definition is_make_key (c : t) : bool :=
  match c with make_key _ => true | _ => false end.

(** The key codes the [make_key] calls of a sequence ask for, in call
    order. *)
Definition made_keys (cs : list t) : list Z :=
  omap (λ c, match c with make_key key => Some key | _ => None end) cs.

(** The event types the [add_event_listener] calls of a sequence name. *)
Definition added_types (cs : list t) : list event_type :=
  omap (λ c, match c with
             | add_event_listener type _ => Some type
             | _ => None
             end) cs.

(** The calls that write to the window object; the other ones read it or
    call the backend. *)
Definition changes_window (c : t) : bool :=
  match c with
  | add_event_listener _ _ | remove_event_listener _ _ | make_key _ => true
  | _ => false
  end.
End calls.
End calls.

(** ** External holders of a key reference

    What the holders outside the window do with references: copy one they
    hold, or destroy one they hold.  [held] counts the references to [p]
    in their hands; a step on [p] that needs a reference they do not hold
    cannot happen. *)
Module holders.
Inductive step := Copy (q : state.ref) | Release (q : state.ref).

Fixpoint run (p : state.ref) (acts : list step) (held : nat)
    (h : state.heap) : option (nat * state.heap) :=
  match acts with
  | [] => Some (held, h)
  | Copy q :: rest =>
      if decide (q = p) then
        match held with
        | O => None
        | S _ => run p rest (S held) (state.copy q h)
        end
      else run p rest held (state.copy q h)
  | Release q :: rest =>
      if decide (q = p) then
        match held with
        | O => None
        | S n => run p rest n (state.release q h)
        end
      else run p rest held (state.release q h)
  end.
End holders.

(** ** A backend for tests

    The position the window was last moved to, the close flag and a clock
    that advances when it is read. *)
Module fake.
Record backend := Backend {
  close_flag : Z; pos_x : Z; pos_y : Z; clock : nat
}.

#[export] Instance glfw : GLFW backend nat := {|
  glfwWindowShouldClose _ b := (close_flag b, b);
  glfwSetWindowPos _ x y b := Backend (close_flag b) x y (clock b);
  glfwGetKey _ _ b := (0, b);
  glfwGetTime b := (clock b, Backend (close_flag b) (pos_x b) (pos_y b)
                               (S (clock b)))
|}.

(** Event types by their enumerator value, listeners by a label. *)
Abbreviation world := (@window.world N _ _ string backend).

Definition data0 : window.data.t N string :=
  window.data.mk _ _ _ _ "fractals" 738 480 1476 960 10 20 ∅.

Definition w0 : world :=
  window.World (Backend 0 10 20 0) ∅ (window.Window 1 [] data0).

(** Callables: [zoom] and [pan] are two objects stored at the same address,
    one after the other; [quit] is stored elsewhere. *)
Definition zoom : cref string := CRef 4096 "zoom".
Definition pan : cref string := CRef 4096 "pan".
Definition quit : cref string := CRef 8192 "quit".

(** The test window after [zoom] was registered for event type 3. *)
Definition w_zoom : world :=
  (window.add_event_listener id 3%N zoom w0).2.

(** The test window as it is, but moved and with [zoom] registered. *)
Definition w_moved : world :=
  window.World (Backend 1 0 0 7) ∅
    (window.Window 2 []
       (window.data.mk _ _ _ _ "fractals" 738 480 1476 960 (-5) 300
          (window.data.events (window.m_data (window.self w_zoom))))).

(** Calls that read the window or go to the backend. *)
Definition backend_calls : list (@calls.t N string) :=
  [calls.set_position 5 6; calls.time; calls.shouldclose; calls.get_key 65;
   calls.str; calls.width; calls.ypos].

(** Calls that ask twice for the key with code 65. *)
Definition key_calls : list (@calls.t N string) :=
  [calls.make_key 65; calls.add_event_listener 3%N zoom; calls.make_key 65].

(** A window whose title runs over two lines. *)
Definition w_two_lines : world :=
  window.World (Backend 0 0 0 0) ∅
    (window.Window 1 []
       (window.data.mk _ _ _ _ ("a" +:+ String LF "b") 738 480 738 480 0 0 ∅)).
End fake.

(** * Properties *)

(** ** Text *)

Lemma chars_app (a b : string) : chars (a +:+ b) = chars a ++ chars b.
Proof. induction a as [|c a IH]; simpl; [done | by rewrite IH]. Qed.

Lemma single_line_app (a b : string) :
  single_line (a +:+ b) = single_line a && single_line b.
Proof. unfold single_line. by rewrite chars_app, forallb_app. Qed.

Lemma single_line_digits (u : Decimal.uint) :
  single_line (NilEmpty.string_of_uint u) = true.
Proof. induction u; simpl; try done; exact IHu. Qed.

Lemma single_line_decimal (u : Decimal.uint) :
  single_line (NilZero.string_of_uint u) = true.
Proof. destruct u; try done; apply single_line_digits. Qed.

Lemma single_line_to_string (z : Z) : single_line (to_string z) = true.
Proof.
  unfold to_string, NilZero.string_of_int.
  destruct (Z.to_int z) as [u|u].
  - apply single_line_decimal.
  - change (single_line ("-" +:+ NilZero.string_of_uint u) = true).
    by rewrite single_line_app, single_line_decimal.
Qed.

Lemma append_assoc (a b c : string) : (a +:+ b) +:+ c = a +:+ (b +:+ c).
Proof.
  induction a as [|x a IH]; [done |].
  change (String x ((a +:+ b) +:+ c) = String x (a +:+ b +:+ c)).
  by f_equal.
Qed.

(** ** The window *)
Section window_properties.
Context {event_type : Type} `{Countable event_type} {event_fn : Type}.
Context {backend double : Type} `{!GLFW backend double}.

Abbreviation world := (@window.world event_type _ _ event_fn backend).
Abbreviation data := (window.data.t event_type event_fn).

Lemma set_events_same (w : world) :
  window.set_events (window.data.events (window.m_data (window.self w))) w = w.
Proof. by destruct w as [b h [hd ks []]]. Qed.

Lemma listener_set_events type id e (w : world) :
  window.listener type id (window.set_events e w) = e !! type ≫= (.!! id).
Proof. done. Qed.

(** C3, as amended: [str()] returns exactly the text
    mono::window { title: "<t>", width: <w>, height: <h>, buffer_width: <bw>,
    buffer_height: <bh> } built from the mirrored title, width, height,
    buffer_width and buffer_height in this order and under these labels, and
    leaves the window as it is; the text is a single line exactly when the
    title holds no line feed, [str()] adding none of its own. *)
Theorem str_format (w : world) :
  let d := window.m_data (window.self w) in
  window.str w =
    ("mono::window { title: " +:+ dquote +:+ window.data.title d +:+ dquote
       +:+ ", width: " +:+ to_string (window.data.width d)
       +:+ ", height: " +:+ to_string (window.data.height d)
       +:+ ", buffer_width: " +:+ to_string (window.data.buffer_width d)
       +:+ ", buffer_height: " +:+ to_string (window.data.buffer_height d)
       +:+ " }", w)
  ∧ single_line (window.str w).1 = single_line (window.data.title d).
Proof.
  intros d. split.
  - unfold window.str, window.gets. fold d. f_equal.
    by rewrite !append_assoc.
  - unfold window.str, window.gets. fold d. cbn [fst].
    rewrite !single_line_app, !single_line_to_string.
    by destruct (single_line (window.data.title d)).
Qed.

(** C10: [str()] depends only on the mirrored title, width, height,
    buffer_width and buffer_height: two window states that agree on these
    five fields give the same text, whatever their positions, listener
    registries, retained key states and backend states are. *)
Theorem str_depends_on_five_fields (w1 w2 : world) :
  let d1 := window.m_data (window.self w1) in
  let d2 := window.m_data (window.self w2) in
  window.data.title d1 = window.data.title d2 →
  window.data.width d1 = window.data.width d2 →
  window.data.height d1 = window.data.height d2 →
  window.data.buffer_width d1 = window.data.buffer_width d2 →
  window.data.buffer_height d1 = window.data.buffer_height d2 →
  (window.str w1).1 = (window.str w2).1.
Proof.
  intros d1 d2 Ht Hw Hh Hbw Hbh.
  unfold window.str, window.gets. cbn [fst]. fold d1 d2.
  by rewrite Ht, Hw, Hh, Hbw, Hbh.
Qed.

(** C5: [set_position(x, y)] hands the request to the backend through the
    window's handle and changes nothing else: the window object, with its
    whole mirrored data block, is the same after the call, so [xpos()] and
    [ypos()] answer what they answered before it. *)
Theorem set_position_keeps_mirror (x y : Z) (w : world) :
  let w1 := (window.set_position x y w).2 in
  window.glfw w1
    = glfwSetWindowPos (window.m_window (window.self w)) x y (window.glfw w)
  ∧ window.self w1 = window.self w
  ∧ window.keys w1 = window.keys w
  ∧ (window.xpos w1).1 = (window.xpos w).1
  ∧ (window.ypos w1).1 = (window.ypos w).1.
Proof. by destruct w. Qed.

(** C8: [width()], [height()], [buffer_width()], [buffer_height()], [xpos()]
    and [ypos()] answer the field of the mirrored data block of the same
    name, leave the whole state as it is and do not depend on the backend;
    [shouldclose()] alone asks the backend, through the window's handle, and
    does not read the mirrored data. *)
Theorem queries_read_mirror (w : world) :
  let d := window.m_data (window.self w) in
  (window.width w = (window.data.width d, w)
   ∧ window.height w = (window.data.height d, w)
   ∧ window.buffer_width w = (window.data.buffer_width d, w)
   ∧ window.buffer_height w = (window.data.buffer_height d, w)
   ∧ window.xpos w = (window.data.xpos d, w)
   ∧ window.ypos w = (window.data.ypos d, w))
  ∧ (∀ b : backend,
       let wb := window.World b (window.keys w) (window.self w) in
       (window.width wb).1 = (window.width w).1
       ∧ (window.height wb).1 = (window.height w).1
       ∧ (window.buffer_width wb).1 = (window.buffer_width w).1
       ∧ (window.buffer_height wb).1 = (window.buffer_height w).1
       ∧ (window.xpos wb).1 = (window.xpos w).1
       ∧ (window.ypos wb).1 = (window.ypos w).1)
  ∧ (window.shouldclose w).1
      = bool_decide
          ((glfwWindowShouldClose (window.m_window (window.self w))
              (window.glfw w)).1 ≠ 0)
  ∧ (∀ (l : list state.ref) (d' : data),
       let wd := window.World (window.glfw w) (window.keys w)
                   (window.Window (window.m_window (window.self w)) l d') in
       (window.shouldclose wd).1 = (window.shouldclose w).1).
Proof.
  intros d. repeat split.
  - unfold window.shouldclose, window.call, mbind, window.M_bind.
    by destruct (glfwWindowShouldClose _ _).
  - intros l d'. unfold window.shouldclose, window.call, mbind, window.M_bind.
    cbn. by destruct (glfwWindowShouldClose _ _).
Qed.

(** *** The listener registry *)

Lemma remove_event_listener_unfold {Callable} type (func : cref Callable) (w : world) :
  let ev := window.data.events (window.m_data (window.self w)) in
  window.remove_event_listener type func w
  = (tt, match ev !! type with
         | Some fns =>
             window.set_events (<[type := delete (address func) fns]> ev) w
         | None => w
         end).
Proof.
  intros ev.
  unfold window.remove_event_listener, mbind, window.M_bind, window.gets,
    window.modify, mret, window.M_ret, umap_erase.
  fold ev. by destruct (ev !! type).
Qed.

Lemma listener_remove {Callable} type (func : cref Callable) (w : world) type' id' :
  window.listener type' id' (window.remove_event_listener type func w).2
  = if decide (type' = type ∧ id' = address func) then None
    else window.listener type' id' w.
Proof.
  rewrite remove_event_listener_unfold. cbn [snd].
  set (ev := window.data.events _).
  destruct (ev !! type) as [fns|] eqn:E.
  - rewrite listener_set_events. unfold window.listener. fold ev.
    destruct (decide (type' = type)) as [->|Hty].
    + rewrite lookup_insert_eq, E. cbn.
      destruct (decide (id' = address func)) as [->|Hid].
      * rewrite lookup_delete_eq. by rewrite decide_True.
      * rewrite lookup_delete_ne by done.
        by rewrite decide_False by intuition congruence.
    + rewrite lookup_insert_ne by done.
      by rewrite decide_False by intuition congruence.
  - unfold window.listener. fold ev. case_decide as Hd; [| done].
    destruct Hd as [-> _]. by rewrite E.
Qed.

Lemma new_address_fresh (h : state.heap) :
  state.new_address h ≠ state.null ∧ h !! state.new_address h = None.
Proof.
  unfold state.new_address.
  pose proof (is_fresh ({[state.null]} ∪ dom h)) as Hf.
  split; [set_solver |]. apply not_elem_of_dom. set_solver.
Qed.

Section registry.
Context {Callable : Type} (to_fn : Callable → event_fn).

Lemma add_event_listener_unfold type (func : cref Callable) (w : world) :
  let ev := window.data.events (window.m_data (window.self w)) in
  let fn := to_fn (object func) in
  window.add_event_listener to_fn type func w
  = (address func,
     window.set_events
       (<[type := umap_insert (address func) fn (default ∅ (ev !! type))]> ev)
       w).
Proof.
  intros ev fn.
  unfold window.add_event_listener, mbind, window.M_bind, window.gets,
    window.modify, mret, window.M_ret, umap_index, umap_insert.
  fold ev fn. case_decide as Hty.
  - by rewrite Hty, !lookup_empty.
  - destruct (ev !! type) eqn:E; [done | congruence].
Qed.

Lemma listener_add type (func : cref Callable) (w : world) type' id' :
  window.listener type' id' (window.add_event_listener to_fn type func w).2
  = if decide (type' = type ∧ id' = address func
               ∧ window.listener type id' w = None)
    then Some (to_fn (object func))
    else window.listener type' id' w.
Proof.
  rewrite add_event_listener_unfold. cbn [snd].
  rewrite listener_set_events. unfold window.listener, umap_insert.
  set (ev := window.data.events _).
  destruct (decide (type' = type)) as [->|Hty].
  - rewrite lookup_insert_eq. cbn.
    destruct (ev !! type) as [fns|] eqn:E; cbn.
    + destruct (decide (id' = address func)) as [->|Hid].
      * destruct (fns !! address func) eqn:F.
        -- rewrite F. by rewrite decide_False by intuition congruence.
        -- rewrite lookup_insert_eq. by rewrite decide_True.
      * rewrite decide_False by intuition congruence.
        destruct (fns !! address func); [done |].
        by rewrite lookup_insert_ne.
    + rewrite lookup_empty.
      destruct (decide (id' = address func)) as [->|Hid].
      * rewrite lookup_insert_eq. by rewrite decide_True.
      * rewrite lookup_insert_ne, lookup_empty by done.
        by rewrite decide_False by intuition congruence.
  - rewrite lookup_insert_ne by done.
    by rewrite decide_False by intuition congruence.
Qed.


(** C1, as amended: the identity [add_event_listener(type, callable)]
    returns is the storage address of its callable argument, under which a
    callback is then registered for [type].  Two calls return different
    identities exactly when their arguments are stored at different
    addresses, and [remove_event_listener(type, other)] erases the
    registration exactly when [other] is stored at the address of the
    registered callable, whatever value [other] has; any other removal
    leaves the registration as it is. *)
Theorem listener_identity_is_address
    type (func : cref Callable) (w : world) :
  let id := (window.add_event_listener to_fn type func w).1 in
  let w1 := (window.add_event_listener to_fn type func w).2 in
  id = address func
  ∧ is_Some (window.listener type id w1)
  ∧ (∀ type2 (func2 : cref Callable) (w2 : world),
       (window.add_event_listener to_fn type2 func2 w2).1 = id
       ↔ address func2 = address func)
  ∧ (∀ (Other : Type) (other : cref Other),
       let w2 := (window.remove_event_listener type other w1).2 in
       (window.listener type id w2 = None ↔ address other = address func)
       ∧ window.listener type id w2
         = if decide (address other = address func) then None
           else window.listener type id w1).
Proof.
  intros id w1. unfold id, w1.
  assert (Hid : (window.add_event_listener to_fn type func w).1 = address func)
    by (by rewrite add_event_listener_unfold).
  assert (Hsome : is_Some (window.listener type (address func)
                    (window.add_event_listener to_fn type func w).2)).
  { rewrite listener_add. case_decide as Hd; [by eexists |].
    destruct (window.listener type (address func) w) eqn:E; [by eexists |].
    exfalso. apply Hd. by intuition congruence. }
  rewrite Hid. split; [done |]. split; [done |]. split.
  - intros type2 func2 w2. by rewrite add_event_listener_unfold.
  - intros Other other. cbn zeta. rewrite listener_remove. split.
    + split.
      * case_decide as Hd; [intros _; symmetry; apply Hd |].
        intros Hnone. rewrite Hnone in Hsome. by destruct Hsome.
      * intros Ha. by rewrite decide_True.
    + do 2 case_decide; intuition congruence.
Qed.

(** C2: [remove_event_listener(T, L)] with no callback registered under [T]
    with [L]'s identity, be it that [T] has no listener map or that the map
    holds no such identity, returns and leaves the whole state as it was;
    so does a second call in a row with the same arguments, the first one
    having left no such registration. *)
Theorem remove_event_listener_idempotent
    type (func : cref Callable) (w : world) :
  (window.listener type (address func) w = None →
   window.remove_event_listener type func w = (tt, w))
  ∧ (let w1 := (window.remove_event_listener type func w).2 in
     window.listener type (address func) w1 = None
     ∧ window.remove_event_listener type func w1 = (tt, w1)).
Proof.
  assert (Hnoop : ∀ w' : world, window.listener type (address func) w' = None →
            window.remove_event_listener type func w' = (tt, w')).
  { intros w' Hnone. rewrite remove_event_listener_unfold. cbn zeta.
    unfold window.listener in Hnone.
    destruct (_ !! type) as [fns|] eqn:E; [| done].
    cbn in Hnone. rewrite delete_id by done.
    rewrite insert_id by done. by rewrite set_events_same. }
  split; [apply Hnoop |]. cbn zeta.
  assert (Hgone : window.listener type (address func)
                    (window.remove_event_listener type func w).2 = None).
  { rewrite listener_remove. by rewrite decide_True. }
  split; [done | by apply Hnoop].
Qed.

(** C9: when a callback is registered under [T] with identity [id], an
    [add_event_listener(T, callable)] whose callable is stored at [id]
    returns [id] and leaves the registry, and with it the whole state, as
    it was: the stored callback stays and the new callable is dropped. *)
Theorem add_event_listener_keeps_existing
    type (func : cref Callable) (w : world) (id : N) (fn : event_fn) :
  window.listener type id w = Some fn →
  address func = id →
  window.add_event_listener to_fn type func w = (id, w)
  ∧ window.listener type id (window.add_event_listener to_fn type func w).2
    = Some fn.
Proof.
  intros Hreg <-.
  assert (Hsame : window.add_event_listener to_fn type func w
                  = (address func, w)).
  { rewrite add_event_listener_unfold. cbn zeta. unfold window.listener in Hreg.
    destruct (_ !! type) as [fns|] eqn:E; [| done].
    cbn in Hreg. unfold umap_insert. cbn. rewrite Hreg.
    rewrite insert_id by done. by rewrite set_events_same. }
  by rewrite Hsame.
Qed.

(** *** The retained key states *)

Lemma make_key_unfold (k : Z) (w : world) :
  let p := state.new_address (window.keys w) in
  window.make_key k w
  = (p, window.World (window.glfw w)
          (state.copy p (<[p := state.Key k 1]> (window.keys w)))
          (window.Window (window.m_window (window.self w))
             (window.m_keys (window.self w) ++ [p])
             (window.m_data (window.self w)))).
Proof.
  intros p.
  unfold window.make_key, mbind, window.M_bind, window.gets, window.modify,
    mret, window.M_ret, state.make.
  fold p. cbn. by rewrite last_snoc.
Qed.

Lemma exec_other_keeps_m_keys (c : calls.t) (w : world) :
  calls.is_make_key c = false →
  window.m_keys (window.self (calls.exec to_fn c w))
  = window.m_keys (window.self w).
Proof.
  intros Hc. destruct c; try done; cbn [calls.exec].
  - unfold window.shouldclose, window.call, mbind, window.M_bind.
    by destruct (glfwWindowShouldClose _ _).
  - unfold window.time, window.call. by destruct (glfwGetTime _).
  - by rewrite add_event_listener_unfold.
  - rewrite remove_event_listener_unfold. cbn.
    by destruct (_ !! type).
  - unfold window.get_key, window.call. by destruct (glfwGetKey _ _ _).
Qed.

Lemma exec_m_keys (c : calls.t) (w : world) :
  ∃ new : list state.ref,
    window.m_keys (window.self (calls.exec to_fn c w))
    = window.m_keys (window.self w) ++ new
    ∧ length new = if calls.is_make_key c then 1%nat else 0%nat.
Proof.
  destruct (calls.is_make_key c) eqn:Hc.
  - destruct c; try done. cbn [calls.exec]. rewrite make_key_unfold.
    by eexists [_].
  - exists []. by rewrite exec_other_keeps_m_keys, app_nil_r.
Qed.

Lemma run_m_keys (cs : list calls.t) (w : world) :
  ∃ new : list state.ref,
    window.m_keys (window.self (calls.run to_fn cs w))
    = window.m_keys (window.self w) ++ new
    ∧ length new = length (filter (λ c, calls.is_make_key c = true) cs).
Proof.
  revert w. induction cs as [|c cs IH]; intros w.
  - exists []. by rewrite app_nil_r.
  - destruct (exec_m_keys c w) as (n1 & E1 & L1).
    destruct (IH (calls.exec to_fn c w)) as (n2 & E2 & L2).
    exists (n1 ++ n2). split.
    + cbn. unfold calls.run in E2. by rewrite E2, E1, app_assoc.
    + rewrite length_app, L1, L2, filter_cons.
      destruct (calls.is_make_key c); [by rewrite decide_True |].
      by rewrite decide_False.
Qed.

Lemma exec_other_keeps_keys (c : calls.t) (w : world) :
  calls.is_make_key c = false →
  window.keys (calls.exec to_fn c w) = window.keys w.
Proof.
  intros Hc. destruct c; try done; cbn [calls.exec].
  - unfold window.shouldclose, window.call, mbind, window.M_bind.
    by destruct (glfwWindowShouldClose _ _).
  - unfold window.time, window.call. by destruct (glfwGetTime _).
  - by rewrite add_event_listener_unfold.
  - rewrite remove_event_listener_unfold. cbn.
    by destruct (_ !! type).
  - unfold window.get_key, window.call. by destruct (glfwGetKey _ _ _).
Qed.

Lemma exec_keeps_key_states (c : calls.t) (w : world) (q : N) o :
  window.keys w !! q = Some o →
  window.keys (calls.exec to_fn c w) !! q = Some o.
Proof.
  intros Hq. destruct (calls.is_make_key c) eqn:Hc.
  - destruct c; try done. cbn [calls.exec]. rewrite make_key_unfold. cbn.
    destruct (new_address_fresh (window.keys w)) as [_ Hnew].
    assert (Hne : state.new_address (window.keys w) ≠ q)
      by (intros <-; rewrite Hnew in Hq; done).
    unfold state.copy. by rewrite lookup_alter_ne, lookup_insert_ne.
  - by rewrite exec_other_keeps_keys.
Qed.

Lemma run_keeps_key_states (cs : list calls.t) (w : world) (q : N) o :
  window.keys w !! q = Some o →
  window.keys (calls.run to_fn cs w) !! q = Some o.
Proof.
  revert w. induction cs as [|c cs IH]; intros w Hq; [done |].
  cbn. apply IH. by apply exec_keeps_key_states.
Qed.

Lemma exec_no_key_state (c : calls.t) (w : world) (q : N) :
  window.keys (calls.exec to_fn c w) !! q = None →
  window.keys w !! q = None.
Proof.
  intros Hq. destruct (window.keys w !! q) as [o|] eqn:E; [| done].
  by rewrite (exec_keeps_key_states c w q o E) in Hq.
Qed.

Lemma run_creates_key_states (cs : list calls.t) (w : world) :
  ∃ refs : list N,
    window.m_keys (window.self (calls.run to_fn cs w))
    = window.m_keys (window.self w) ++ refs
    ∧ NoDup refs
    ∧ Forall2
        (λ (k : Z) (p : N),
           p ≠ state.null
           ∧ window.keys w !! p = None
           ∧ ∃ o, window.keys (calls.run to_fn cs w) !! p = Some o
                  ∧ state.code o = k)
        (calls.made_keys cs) refs.
Proof.
  revert w. induction cs as [|c cs IH]; intros w.
  - exists []. split; [by rewrite app_nil_r |].
    split; [apply NoDup_nil_2 | apply Forall2_nil_2].
  - destruct (IH (calls.exec to_fn c w)) as (refs & E & Hnd & Hall).
    unfold calls.run in E, Hall. cbn [calls.run foldl].
    destruct (calls.is_make_key c) eqn:Hc.
    + destruct c as [| | | | | | | | | | | | |k]; try done.
      cbn [calls.exec] in *. unfold calls.made_keys. cbn [omap list_omap].
      fold (calls.made_keys cs).
      destruct (new_address_fresh (window.keys w)) as [Hnull Hnew].
      assert (Hw1 : window.m_keys (window.self (window.make_key k w).2)
                    = window.m_keys (window.self w)
                      ++ [state.new_address (window.keys w)]
                    ∧ window.keys (window.make_key k w).2
                        !! state.new_address (window.keys w)
                      = Some (state.Key k 2)).
      { rewrite make_key_unfold. cbn. split; [done |].
        unfold state.copy. by rewrite lookup_alter_eq, lookup_insert_eq. }
      destruct Hw1 as [Hm Hp].
      set (w1 := (window.make_key k w).2) in *.
      set (p := state.new_address (window.keys w)) in *.
      exists (p :: refs). split; [by rewrite E, Hm, <- app_assoc |]. split.
      * apply NoDup_cons. split; [| done]. intros Hin.
        destruct (proj1 (list_elem_of_lookup refs p) Hin) as [i Hi].
        destruct (Forall2_lookup_r _ _ _ _ _ Hall Hi) as (k' & _ & _ & Hno & _).
        rewrite Hp in Hno. done.
      * apply Forall2_cons. split.
        -- split; [done |]. split; [done |]. exists (state.Key k 2).
           split; [| done].
           by apply (run_keeps_key_states cs w1 p (state.Key k 2)).
        -- eapply Forall2_impl; [exact Hall |].
           intros k' q (Hq & Hno & Hsome). split; [done |].
           split; [| done]. by apply (exec_no_key_state (calls.make_key k)).
    + exists refs.
      rewrite (exec_other_keeps_m_keys c w Hc) in E.
      assert (Hmk : calls.made_keys (c :: cs) = calls.made_keys cs)
        by (by destruct c).
      rewrite Hmk. split; [done |]. split; [done |].
      eapply Forall2_impl; [exact Hall |].
      intros k' q (Hq & Hno & Hsome). split; [done |]. split; [| done].
      by rewrite (exec_other_keeps_keys c w Hc) in Hno.
Qed.

Lemma made_keys_make_key (ks : list Z) :
  calls.made_keys
    (calls.make_key (event_type := event_type) (Callable := Callable) <$> ks)
  = ks.
Proof.
  induction ks as [|k ks IH]; [done |].
  unfold calls.made_keys in *. cbn. by rewrite IH.
Qed.

(** C6: every [make_key(code)] creates a key state for [code] and appends
    the reference to it to the retained collection, whatever the key code
    and whether or not it was asked for before, and no member function
    takes an entry away.  Over any sequence of calls the collection keeps
    its entries in place and grows by the number of [make_key] calls in the
    sequence, so [n] calls of [make_key] grow it by exactly [n] entries;
    the entries appended are, in call order, one reference for each
    [make_key] call: not null, to a key state that did not exist before the
    sequence and that wraps the code of its call, and different from the
    reference of every other call, calls for the same code included. *)
Theorem make_key_accumulates (cs : list calls.t) (ks : list Z) (w : world) :
  window.m_keys (window.self w)
    `prefix_of` window.m_keys (window.self (calls.run to_fn cs w))
  ∧ length (window.m_keys (window.self (calls.run to_fn cs w)))
    = (length (window.m_keys (window.self w))
       + length (filter (λ c, calls.is_make_key c = true) cs))%nat
  ∧ length (window.m_keys
              (window.self (calls.run to_fn (calls.make_key <$> ks) w)))
    = (length (window.m_keys (window.self w)) + length ks)%nat
  ∧ (∃ refs : list N,
       window.m_keys (window.self (calls.run to_fn cs w))
       = window.m_keys (window.self w) ++ refs
       ∧ NoDup refs
       ∧ Forall2
           (λ (k : Z) (p : N),
              p ≠ state.null
              ∧ window.keys w !! p = None
              ∧ ∃ o, window.keys (calls.run to_fn cs w) !! p = Some o
                     ∧ state.code o = k)
           (calls.made_keys cs) refs)
  ∧ (∃ refs : list N,
       window.m_keys
         (window.self (calls.run to_fn (calls.make_key <$> ks) w))
       = window.m_keys (window.self w) ++ refs
       ∧ NoDup refs
       ∧ Forall2
           (λ (k : Z) (p : N),
              p ≠ state.null
              ∧ window.keys w !! p = None
              ∧ ∃ o, window.keys
                       (calls.run to_fn (calls.make_key <$> ks) w) !! p
                     = Some o
                     ∧ state.code o = k)
           ks refs).
Proof.
  destruct (run_m_keys cs w) as (new & E & L).
  split; [by exists new |]. split; [by rewrite E, length_app, L |].
  split.
  { destruct (run_m_keys (calls.make_key <$> ks) w) as (new' & E' & L').
    rewrite E', length_app, L'. f_equal.
    clear. induction ks as [|k ks IH]; [done |].
    cbn [fmap list_fmap]. rewrite filter_cons, decide_True by done.
    cbn [length]. f_equal. exact IH. }
  split; [apply run_creates_key_states |].
  destruct (run_creates_key_states (calls.make_key <$> ks) w)
    as (refs & Hm & Hnd & Hall).
  rewrite made_keys_make_key in Hall. by exists refs.
Qed.

End registry.

Lemma release_other (p q : state.ref) (h : state.heap) :
  q ≠ p → state.release q h !! p = h !! p.
Proof.
  intros Hne. unfold state.release.
  destruct (h !! q) as [o|]; [| done].
  case_decide; [by rewrite lookup_delete_ne | by rewrite lookup_insert_ne].
Qed.

Lemma holders_run_keeps (k : Z) (p : state.ref) (acts : list holders.step) :
  ∀ (held : nat) (h : state.heap) (c : positive) held' h',
    h !! p = Some (state.Key k c) →
    Pos.to_nat c = S held →
    holders.run p acts held h = Some (held', h') →
    ∃ c', h' !! p = Some (state.Key k c') ∧ Pos.to_nat c' = S held'.
Proof.
  induction acts as [|a acts IH]; intros held h c held' h' Hp Hc Hrun.
  - cbn in Hrun. injection Hrun as <- <-. eauto.
  - destruct a as [q|q]; cbn in Hrun; case_decide as Hq.
    + subst q. destruct held as [|n]; [done |].
      eapply IH; [| | exact Hrun].
      * unfold state.copy. rewrite lookup_alter_eq, Hp. done.
      * cbn. lia.
    + eapply IH; [| exact Hc | exact Hrun].
      unfold state.copy. by rewrite lookup_alter_ne.
    + subst q. destruct held as [|n]; [done |].
      eapply IH; [| | exact Hrun].
      * unfold state.release. rewrite Hp. cbn.
        rewrite decide_False by lia. by rewrite lookup_insert_eq.
      * lia.
    + eapply IH; [| exact Hc | exact Hrun].
      by rewrite release_other.
Qed.

(** C7: [make_key(K)] returns a reference that is not null, to a new key
    state wrapping [K]; the window keeps a reference of its own to this
    object, the last entry of its retained collection.  Whatever the
    holders outside the window then do with the references in their hands,
    the object stays alive and wraps [K], its use count being the window's
    one reference plus theirs; it is still so when they have released every
    one of theirs. *)
Theorem make_key_retained (k : Z) (w : world)
    (acts : list holders.step) (held : nat) (h : state.heap) :
  let p := (window.make_key k w).1 in
  let w1 := (window.make_key k w).2 in
  holders.run p acts 1 (window.keys w1) = Some (held, h) →
  p ≠ state.null
  ∧ window.keys w !! p = None
  ∧ last (window.m_keys (window.self w1)) = Some p
  ∧ window.keys w1 !! p = Some (state.Key k 2)
  ∧ state.valid k p h
  ∧ ∃ o, h !! p = Some o ∧ Pos.to_nat (state.use_count o) = S held.
Proof.
  rewrite make_key_unfold. cbn [fst snd window.keys window.self window.m_keys].
  set (p := state.new_address (window.keys w)). intros Hrun.
  destruct (new_address_fresh (window.keys w)) as [Hnull Hnew]. fold p in Hnull, Hnew.
  assert (Hp : state.copy p (<[p:=state.Key k 1]> (window.keys w)) !! p
               = Some (state.Key k 2)).
  { unfold state.copy. by rewrite lookup_alter_eq, lookup_insert_eq. }
  destruct (holders_run_keeps k p acts 1 _ 2%positive held h Hp eq_refl Hrun)
    as (c' & Hh & Hc').
  split; [done |]. split; [done |]. split; [by rewrite last_snoc |].
  split; [done |]. split.
  - split; [done |]. by exists (state.Key k c').
  - by exists (state.Key k c').
Qed.

End window_properties.

(** ** window_props *)

(** C4: a default-constructed [window_props] has width 738 and height 480,
    and both coordinates of its position are [INT32_MIN], the least value of
    their type, which stands for a position left to the backend; the record
    holds the title (by default "no title"), the width, the height and the
    position. *)
Theorem window_props_default :
  window_props.width window_props.default = 738
  ∧ window_props.height window_props.default = 480
  ∧ window_props.xpos window_props.default = INT32_MIN
  ∧ window_props.ypos window_props.default = INT32_MIN
  ∧ INT32_MIN = -2147483648
  ∧ int32 INT32_MIN
  ∧ window_props.title window_props.default = "no title"
  ∧ window_props.default
    = window_props.mk "no title" 738 480 INT32_MIN INT32_MIN.
Proof. by repeat split. Qed.

(** ** The window on the test backend *)

(** C1 fails as stated: [fake.zoom] and [fake.pan] are two callables, stored at the
    same address; both registrations return the same identity, and
    [remove_event_listener] called with [fake.pan] removes the callback that was
    registered with [fake.zoom]. *)
Lemma distinct_callables_collide :
  fake.zoom ≠ fake.pan
  ∧ (window.add_event_listener id 3%N fake.zoom fake.w0).1
    = (window.add_event_listener id 3%N fake.pan fake.w0).1
  ∧ window.listener 3%N 4096%N fake.w_zoom = Some "zoom"
  ∧ window.listener 3%N 4096%N (window.remove_event_listener 3%N fake.pan fake.w_zoom).2
    = None.
Proof. split; [discriminate |]. by vm_compute. Qed.

(** C3 fails as stated: the text [str()] returns for a window whose title
    holds a line feed is not a single line. *)
Lemma str_of_two_line_title :
  window.data.title (window.m_data (window.self fake.w_two_lines))
    = "a" +:+ String LF "b"
  ∧ single_line (window.str fake.w_two_lines).1 = false.
Proof. by vm_compute. Qed.

Lemma remove_event_listener_idempotent_witness :
  window.listener 3%N (address fake.quit) fake.w_zoom = None
  ∧ window.remove_event_listener 3%N fake.quit fake.w_zoom = (tt, fake.w_zoom).
Proof.
  split; [reflexivity |].
  apply (proj1 (remove_event_listener_idempotent 3%N fake.quit fake.w_zoom)).
  reflexivity.
Defined.

Lemma add_event_listener_keeps_existing_witness :
  window.listener 3%N 4096%N fake.w_zoom = Some "zoom"
  ∧ address fake.pan = 4096%N
  ∧ window.add_event_listener id 3%N fake.pan fake.w_zoom = (4096%N, fake.w_zoom).
Proof.
  split; [reflexivity |]. split; [reflexivity |].
  apply (add_event_listener_keeps_existing id 3%N fake.pan fake.w_zoom 4096%N "zoom");
    reflexivity.
Defined.

Lemma str_depends_on_five_fields_witness :
  (window.str fake.w0).1
  = (window.str
       (window.World (fake.Backend 1 0 0 7) (window.keys (window.make_key 65 fake.w_zoom).2)
          (window.Window 2 [1%N]
             (window.data.mk _ _ _ _ "fractals" 738 480 1476 960 (-5) 300
                (window.data.events (window.m_data (window.self fake.w_zoom))))))).1.
Proof. apply str_depends_on_five_fields; reflexivity. Defined.

Lemma make_key_retained_witness :
  holders.run (window.make_key 65 fake.w_zoom).1
    [holders.Copy 1%N; holders.Release 1%N; holders.Release 1%N] 1
    (window.keys (window.make_key 65 fake.w_zoom).2)
  = Some (0%nat, <[1%N := state.Key 65 1]> ∅)
  ∧ state.valid 65 1%N (<[1%N := state.Key 65 1]> ∅).
Proof.
  split; [reflexivity |].
  apply (make_key_retained 65 fake.w_zoom
           [holders.Copy 1%N; holders.Release 1%N; holders.Release 1%N]
           0%nat (<[1%N := state.Key 65 1]> ∅)).
  reflexivity.
Defined.

(** * Further properties *)

(** ** Text *)

Lemma chars_inj (a b : string) : chars a = chars b → a = b.
Proof.
  revert b. induction a as [|x a IH]; intros [|y b] E; try done.
  injection E as -> E. f_equal. by apply IH.
Qed.

Lemma numeric_digits (u : Decimal.uint) :
  Forall (λ c, numeric c = true) (chars (NilEmpty.string_of_uint u)).
Proof. induction u; simpl; by repeat constructor. Qed.

Lemma numeric_to_string (z : Z) :
  Forall (λ c, numeric c = true) (chars (to_string z)).
Proof.
  unfold to_string, NilZero.string_of_int, NilZero.string_of_uint.
  destruct (Z.to_int z) as [u|u]; destruct u;
    repeat first [apply numeric_digits | apply (numeric_digits (_ u))
                 | by constructor | constructor; [done |]].
Qed.

Lemma to_string_inj (z1 z2 : Z) : to_string z1 = to_string z2 → z1 = z2.
Proof.
  unfold to_string. intros E. apply DecimalZ.to_int_inj.
  assert (Hn : ∀ z, Z.to_int z ≠ Decimal.Pos Decimal.Nil
                    ∧ Z.to_int z ≠ Decimal.Neg Decimal.Nil).
  { intros [|p|p]; split; try done; cbn; intros [= Hp];
      by apply DecimalPos.Unsigned.to_uint_nonnil in Hp. }
  apply (f_equal NilZero.int_of_string) in E.
  rewrite !NilZero.isi in E by apply Hn. by injection E.
Qed.

Lemma numeric_prefix_unique (x y : list Ascii.ascii) c c' r r' :
  Forall (λ c, numeric c = true) x → Forall (λ c, numeric c = true) y →
  numeric c = false → numeric c' = false →
  x ++ c :: r = y ++ c' :: r' → x = y ∧ c :: r = c' :: r'.
Proof.
  intros Hx. revert y. induction Hx as [|a x Ha Hx IH]; intros y Hy Hc Hc' E.
  - destruct Hy as [|b y Hb Hy]; [done |].
    cbn in E. injection E as -> _. congruence.
  - destruct Hy as [|b y Hb Hy]; cbn in E; injection E as -> E.
    + congruence.
    + by destruct (IH y Hy Hc Hc' E) as [-> ?].
Qed.

Lemma last_field_unique (pre1 pre2 n1 n2 post : list Ascii.ascii) s :
  numeric s = false →
  Forall (λ c, numeric c = true) n1 → Forall (λ c, numeric c = true) n2 →
  ((pre1 ++ [s]) ++ n1) ++ post = ((pre2 ++ [s]) ++ n2) ++ post →
  pre1 = pre2 ∧ n1 = n2.
Proof.
  intros Hs H1 H2 E. apply app_inv_tail in E.
  apply (f_equal reverse) in E.
  rewrite !reverse_app, !reverse_singleton in E. cbn in E.
  apply numeric_prefix_unique in E as [En Ep];
    [| by apply Forall_reverse | by apply Forall_reverse | done | done].
  injection Ep as Ep. split; by apply (inj reverse).
Qed.

(** ** The window *)
Section window_calls.
Context {event_type : Type} `{Countable event_type} {event_fn : Type}.
Context {backend double : Type} `{!GLFW backend double}.

Abbreviation world := (@window.world event_type _ _ event_fn backend).
Abbreviation events_of w :=
  (window.data.events (window.m_data (window.self w))).

Lemma str_chars (w : world) :
  let d := window.m_data (window.self w) in
  chars (window.str w).1
  = (((((((((((((((chars ("mono::window { title: " +:+ dquote)
      ++ chars (window.data.title d)) ++ chars (dquote +:+ ", width:"))
      ++ chars " ") ++ chars (to_string (window.data.width d)))
      ++ chars ", height:")
      ++ chars " ") ++ chars (to_string (window.data.height d)))
      ++ chars ", buffer_width:")
      ++ chars " ") ++ chars (to_string (window.data.buffer_width d)))
      ++ chars ", buffer_height:")
      ++ chars " ") ++ chars (to_string (window.data.buffer_height d)))
      ++ chars " }")).
Proof.
  intros d. rewrite <- !chars_app. f_equal.
  unfold window.str, window.gets. fold d. cbn [fst].
  by rewrite !append_assoc.
Qed.

(** X16: the text of [str()] determines the five fields it shows: two
    windows whose texts are equal have the same title, width, height,
    buffer_width and buffer_height, whatever characters the titles hold. *)
Theorem str_determines_fields (w1 w2 : world) :
  let d1 := window.m_data (window.self w1) in
  let d2 := window.m_data (window.self w2) in
  (window.str w1).1 = (window.str w2).1 →
  window.data.title d1 = window.data.title d2
  ∧ window.data.width d1 = window.data.width d2
  ∧ window.data.height d1 = window.data.height d2
  ∧ window.data.buffer_width d1 = window.data.buffer_width d2
  ∧ window.data.buffer_height d1 = window.data.buffer_height d2.
Proof.
  intros d1 d2 E. apply (f_equal chars) in E. rewrite !str_chars in E.
  cbn zeta in E. fold d1 d2 in E.
  apply last_field_unique in E as [E Ebh];
    [| done | apply numeric_to_string ..].
  apply last_field_unique in E as [E Ebw];
    [| done | apply numeric_to_string ..].
  apply last_field_unique in E as [E Eh];
    [| done | apply numeric_to_string ..].
  apply last_field_unique in E as [E Ew];
    [| done | apply numeric_to_string ..].
  apply app_inv_tail, app_inv_head in E.
  repeat split;
    by first [apply chars_inj | apply to_string_inj; apply chars_inj].
Qed.

Lemma events_add {C} (to_fn : C → event_fn) type (func : cref C) (w : world) :
  events_of (window.add_event_listener to_fn type func w).2
  = <[type := umap_insert (address func) (to_fn (object func))
                (default ∅ (events_of w !! type))]> (events_of w).
Proof. by rewrite add_event_listener_unfold. Qed.

Lemma events_remove {C} type (func : cref C) (w : world) :
  events_of (window.remove_event_listener type func w).2
  = match events_of w !! type with
    | Some fns => <[type := delete (address func) fns]> (events_of w)
    | None => events_of w
    end.
Proof.
  rewrite remove_event_listener_unfold. cbn.
  by destruct (events_of w !! type).
Qed.

Lemma set_events_set_events e1 e2 (w : world) :
  window.set_events e2 (window.set_events e1 w) = window.set_events e2 w.
Proof. done. Qed.

Section registry_calls.
Context {Callable : Type} (to_fn : Callable → event_fn).

(** X1: when no callback is registered under [type] with the address of
    [func], be it that [type] has no map yet or that its map lacks the
    address, [add_event_listener(type, func)] leaves the conversion of
    [func] registered under [type] with that address. *)
Theorem add_event_listener_registers type (func : cref Callable) (w : world) :
  window.listener type (address func) w = None →
  window.listener type (address func)
    (window.add_event_listener to_fn type func w).2
  = Some (to_fn (object func)).
Proof. intros Hn. rewrite listener_add. by rewrite decide_True. Qed.

(** X2: [add_event_listener(type, func)] and
    [remove_event_listener(type, func)] leave the callback of every other
    pair of an event type and an identity as it is. *)
Theorem registry_calls_touch_one_entry
    type (func : cref Callable) (w : world) type' id' :
  (type', id') ≠ (type, address func) →
  window.listener type' id' (window.add_event_listener to_fn type func w).2
  = window.listener type' id' w
  ∧ window.listener type' id' (window.remove_event_listener type func w).2
    = window.listener type' id' w.
Proof.
  intros Hne. rewrite listener_add, listener_remove.
  rewrite !decide_False; [done | |]; intros Hd; apply Hne;
    f_equal; intuition congruence.
Qed.

(** X3: [add_event_listener] and [remove_event_listener] write to the
    registry only: with the registry of before put back, the state after
    the call is the state before it, backend, key states, handle, retained
    keys, title, sizes and position included. *)
Theorem registry_calls_keep_rest type (func : cref Callable) (w : world) :
  let wa := (window.add_event_listener to_fn type func w).2 in
  let wr := (window.remove_event_listener type func w).2 in
  window.set_events (events_of w) wa = w
  ∧ window.set_events (events_of w) wr = w.
Proof.
  cbn zeta. rewrite add_event_listener_unfold, remove_event_listener_unfold.
  cbn [snd]. destruct (events_of w !! type);
    by rewrite ?set_events_set_events, !set_events_same.
Qed.

(** X4: when [type] has a map that holds no callback under the address of
    [func], [add_event_listener(type, func)] followed by
    [remove_event_listener(type, func)] gives the state of before back. *)
Theorem add_then_remove_restores type (func : cref Callable) (w : world) fns :
  events_of w !! type = Some fns →
  fns !! address func = None →
  (window.remove_event_listener type func
     (window.add_event_listener to_fn type func w).2).2 = w.
Proof.
  intros Ht Hid.
  rewrite remove_event_listener_unfold. cbn [snd]. rewrite events_add.
  rewrite lookup_insert_eq, insert_insert_eq. rewrite Ht. cbn.
  unfold umap_insert. rewrite Hid, delete_insert_eq, delete_id by done.
  rewrite insert_id by done.
  rewrite add_event_listener_unfold. cbn [snd].
  by rewrite set_events_set_events, set_events_same.
Qed.

(** X5: when [type] has no map, [add_event_listener(type, func)] followed
    by [remove_event_listener(type, func)] does not give the state of
    before back: [type] is left with an empty map, the removal erasing the
    callback and not the map. *)
Theorem first_listener_leaves_map type (func : cref Callable) (w : world) :
  events_of w !! type = None →
  let w2 := (window.remove_event_listener type func
               (window.add_event_listener to_fn type func w).2).2 in
  events_of w2 = <[type := ∅]> (events_of w)
  ∧ events_of w2 !! type = Some ∅
  ∧ w2 ≠ w.
Proof.
  intros Ht. cbn zeta.
  assert (E : events_of (window.remove_event_listener type func
               (window.add_event_listener to_fn type func w).2).2
              = <[type := ∅]> (events_of w)).
  { rewrite events_remove, events_add. rewrite lookup_insert_eq, insert_insert_eq.
    rewrite Ht. cbn. unfold umap_insert. rewrite lookup_empty.
    by rewrite delete_insert_eq, delete_empty. }
  split; [done |]. split; [by rewrite E, lookup_insert_eq |].
  intros Hw. rewrite Hw in E. rewrite E, lookup_insert_eq in Ht. done.
Qed.

(** X6: [remove_event_listener] followed by [add_event_listener] with a
    callable stored at the same address registers the new callable,
    whatever was registered before. *)
Theorem remove_then_add_replaces
    type (a : N) (old new : Callable) (w : world) :
  window.listener type a
    (window.add_event_listener to_fn type (CRef a new)
       (window.remove_event_listener type (CRef a old) w).2).2
  = Some (to_fn new).
Proof.
  rewrite listener_add. cbn [address object].
  rewrite decide_True; [done |]. split; [done |]. split; [done |].
  rewrite listener_remove. by rewrite decide_True.
Qed.

(** X8: [add_event_listener(type, func)] makes the number of callbacks
    under [type] one larger when none is registered with the address of
    [func] and keeps it otherwise; [remove_event_listener(type, func)] makes
    it one smaller when one is registered and keeps it otherwise. *)
Theorem listener_count type (func : cref Callable) (w : world) :
  size (window.listeners type (window.add_event_listener to_fn type func w).2)
  = (size (window.listeners type w)
     + match window.listener type (address func) w with
       | Some _ => 0 | None => 1 end)%nat
  ∧ size (window.listeners type (window.remove_event_listener type func w).2)
    = (size (window.listeners type w)
       - match window.listener type (address func) w with
         | Some _ => 1 | None => 0 end)%nat.
Proof.
  unfold window.listeners, window.listener. rewrite events_add, events_remove.
  rewrite lookup_insert_eq. cbn. unfold umap_insert.
  destruct (events_of w !! type) as [fns|] eqn:Ht; cbn.
  - rewrite lookup_insert_eq. cbn.
    destruct (fns !! address func) eqn:Hid.
    + split; [lia |]. rewrite map_size_delete, Hid. lia.
    + split; [rewrite map_size_insert, Hid; cbn; lia |].
      rewrite map_size_delete, Hid. cbn. lia.
  - rewrite Ht, lookup_empty. cbn.
    rewrite map_size_insert, lookup_empty, map_size_empty. cbn. lia.
Qed.

(** X9: two removals give the same state in either order. *)
Theorem remove_event_listener_commutes
    type1 (func1 : cref Callable) type2 (func2 : cref Callable) (w : world) :
  (window.remove_event_listener type1 func1
     (window.remove_event_listener type2 func2 w).2).2
  = (window.remove_event_listener type2 func2
       (window.remove_event_listener type1 func1 w).2).2.
Proof.
  assert (Hrem : ∀ type (func : cref Callable) (w' : world),
            (window.remove_event_listener type func w').2
            = window.set_events
                (alter (delete (address func)) type (events_of w')) w').
  { intros type func w'. rewrite remove_event_listener_unfold. cbn [snd].
    destruct (events_of w' !! type) as [fns|] eqn:E.
    - f_equal. apply map_eq. intros t. rewrite lookup_alter, lookup_insert.
      repeat case_decide; subst; by rewrite ?E.
    - rewrite <- (set_events_same w') at 1. f_equal.
      apply map_eq. intros t. rewrite lookup_alter.
      repeat case_decide; subst; by rewrite ?E. }
  rewrite !Hrem, !set_events_set_events.
  apply (f_equal (λ e, window.set_events e w)). cbn.
  apply map_eq. intros t. rewrite !lookup_alter.
  repeat case_decide; subst; try done.
  destruct (events_of w !! t); [| done]. cbn. f_equal.
  apply delete_delete.
Qed.


Lemma exec_backend_call (c : calls.t) (w : world) :
  calls.changes_window c = false →
  window.self (calls.exec to_fn c w) = window.self w
  ∧ window.keys (calls.exec to_fn c w) = window.keys w.
Proof.
  intros Hc. destruct c; try done; cbn [calls.exec].
  - unfold window.shouldclose, window.call, mbind, window.M_bind.
    by destruct (glfwWindowShouldClose _ _).
  - unfold window.time, window.call. by destruct (glfwGetTime _).
  - unfold window.get_key, window.call. by destruct (glfwGetKey _ _ _).
Qed.

Lemma exec_geometry (c : calls.t) (w : world) :
  window.geometry (calls.exec to_fn c w) = window.geometry w.
Proof.
  destruct (calls.changes_window c) eqn:Hc.
  - destruct c; try done; cbn [calls.exec].
    + by rewrite add_event_listener_unfold.
    + rewrite remove_event_listener_unfold. cbn [snd].
      by destruct (_ !! type).
  - unfold window.geometry. by destruct (exec_backend_call c w Hc) as [-> _].
Qed.

(** X12: no member function defined in the header writes to the handle or
    to the mirrored title, width, height, buffer_width, buffer_height, xpos
    and ypos: they are the same after any sequence of calls. *)
Theorem calls_keep_geometry (cs : list calls.t) (w : world) :
  window.geometry (calls.run to_fn cs w) = window.geometry w.
Proof.
  revert w. induction cs as [|c cs IH]; intros w; [done |].
  cbn. unfold calls.run in IH. by rewrite IH, exec_geometry.
Qed.

(** X13: a sequence of calls without [add_event_listener],
    [remove_event_listener] and [make_key] leaves the window object and the
    key states as they are; it reaches the backend only. *)
Theorem backend_calls_keep_window (cs : list calls.t) (w : world) :
  forallb (λ c, negb (calls.changes_window c)) cs = true →
  window.self (calls.run to_fn cs w) = window.self w
  ∧ window.keys (calls.run to_fn cs w) = window.keys w.
Proof.
  revert w. induction cs as [|c cs IH]; intros w Hcs; [done |].
  cbn in Hcs. apply andb_prop in Hcs as [Hc Hcs].
  apply negb_true_iff in Hc.
  destruct (exec_backend_call c w Hc) as [Hs Hk].
  cbn. unfold calls.run in IH. destruct (IH (calls.exec to_fn c w) Hcs) as [-> ->].
  done.
Qed.

Lemma exec_types (c : calls.t) (w : world) :
  dom (events_of (calls.exec to_fn c w))
  = match c with
    | calls.add_event_listener type _ => {[type]} ∪ dom (events_of w)
    | _ => dom (events_of w)
    end.
Proof.
  destruct (calls.changes_window c) eqn:Hc.
  - destruct c; try done; cbn [calls.exec].
    + by rewrite events_add, dom_insert_L.
    + rewrite events_remove.
      destruct (_ !! type) eqn:E; [| done].
      rewrite dom_insert_L. apply elem_of_dom_2 in E.
      apply subseteq_union_1_L. by apply singleton_subseteq_l.
  - destruct (exec_backend_call c w Hc) as [-> _]. by destruct c.
Qed.

(** X11: over any sequence of calls, the event types that have a map in the
    registry are those that had one before and those named by the
    [add_event_listener] calls of the sequence; no call takes the map of a
    type away. *)
Theorem registry_types_grow (cs : list calls.t) (w : world) :
  dom (events_of (calls.run to_fn cs w))
  = dom (events_of w) ∪ list_to_set (calls.added_types cs).
Proof.
  revert w. induction cs as [|c cs IH]; intros w.
  - cbn. by rewrite union_empty_r_L.
  - cbn [calls.run foldl]. unfold calls.run in IH. rewrite IH, exec_types.
    destruct c; try done. cbn.
    by rewrite (comm_L (∪) {[type]}), (assoc_L (∪)).
Qed.

Lemma exec_retained_ok (c : calls.t) (w : world) :
  window.retained_ok w → window.retained_ok (calls.exec to_fn c w).
Proof.
  intros [Hnd Hall]. destruct (calls.is_make_key c) eqn:Hmk.
  - destruct c; try done. cbn [calls.exec]. rewrite make_key_unfold.
    unfold window.retained_ok. cbn.
    set (p := state.new_address (window.keys w)).
    destruct (new_address_fresh (window.keys w)) as [Hnull Hnew].
    fold p in Hnull, Hnew.
    assert (Hp : p ∉ window.m_keys (window.self w)).
    { intros Hin. rewrite Forall_forall in Hall.
      destruct (Hall p Hin) as [_ [o Ho]]. rewrite Hnew in Ho. done. }
    split.
    + apply NoDup_app. split; [done |]. split; [| apply NoDup_singleton].
      intros q Hq ->%list_elem_of_singleton. done.
    + apply Forall_app. split.
      * eapply Forall_impl; [exact Hall |]. intros q [Hq [o Ho]].
        split; [done |]. unfold state.copy. rewrite lookup_alter.
        case_decide as Hpq; [subst q; rewrite Hnew in Ho; done |].
        rewrite lookup_insert_ne by done. by eexists.
      * apply Forall_singleton. split; [done |].
        unfold state.copy. rewrite lookup_alter_eq, lookup_insert_eq.
        by eexists.
  - unfold window.retained_ok. rewrite (exec_other_keeps_m_keys to_fn c w Hmk).
    assert (Hk : window.keys (calls.exec to_fn c w) = window.keys w).
    { destruct (calls.changes_window c) eqn:Hc.
      - destruct c; try done; cbn [calls.exec].
        + by rewrite add_event_listener_unfold.
        + rewrite remove_event_listener_unfold. cbn [snd].
          by destruct (_ !! type).
      - by destruct (exec_backend_call c w Hc). }
    by rewrite Hk.
Qed.

(** X15: when the retained references are pairwise different, not null and
    refer to key states that are alive, they are so after any sequence of
    calls ([ref] and [state::key::make] as modelled in [state]). *)
Theorem retained_keys_stay_valid (cs : list calls.t) (w : world) :
  window.retained_ok w → window.retained_ok (calls.run to_fn cs w).
Proof.
  revert w. induction cs as [|c cs IH]; intros w Hw; [done |].
  cbn. apply IH. by apply exec_retained_ok.
Qed.


(** X14: two [make_key] calls in a row, be it with the same key code,
    return two different references and append both, in this order, to the
    retained collection ([ref] and [state::key::make] as modelled in
    [state]). *)
Theorem make_key_twice_distinct (k1 k2 : Z) (w : world) :
  let r1 := window.make_key k1 w in
  let r2 := window.make_key k2 r1.2 in
  r1.1 ≠ r2.1
  ∧ window.m_keys (window.self r2.2)
    = window.m_keys (window.self w) ++ [r1.1; r2.1].
Proof.
  cbn zeta. rewrite !make_key_unfold. cbn.
  set (p := state.new_address (window.keys w)).
  set (h1 := state.copy p _).
  destruct (new_address_fresh h1) as [_ Hnew].
  split; [| by rewrite <- app_assoc].
  intros Heq. rewrite <- Heq in Hnew. unfold h1, state.copy in Hnew.
  by rewrite lookup_alter_eq, lookup_insert_eq in Hnew.
Qed.

Lemma umap_insert_twice (a : N) (f g : event_fn) (m : gmap N event_fn) :
  umap_insert a g (umap_insert a f m) = umap_insert a f m.
Proof.
  unfold umap_insert. destruct (m !! a) eqn:E.
  - by rewrite E.
  - by rewrite lookup_insert_eq.
Qed.

(** X7: registering the same callable for the same type a second time
    returns the same identity and changes nothing. *)
Theorem add_event_listener_twice type (func : cref Callable) (w : world) :
  let w1 := (window.add_event_listener to_fn type func w).2 in
  window.add_event_listener to_fn type func w1 = (address func, w1).
Proof.
  cbn zeta. rewrite (add_event_listener_unfold to_fn type func (_.2)).
  cbn zeta. f_equal. rewrite events_add.
  rewrite lookup_insert_eq, insert_insert_eq. cbn.
  rewrite umap_insert_twice.
  rewrite add_event_listener_unfold. cbn [snd].
  by rewrite set_events_set_events.
Qed.

Lemma umap_insert_commute (a1 a2 : N) (f1 f2 : event_fn) (m : gmap N event_fn) :
  a1 ≠ a2 →
  umap_insert a1 f1 (umap_insert a2 f2 m)
  = umap_insert a2 f2 (umap_insert a1 f1 m).
Proof.
  intros Hne. unfold umap_insert.
  destruct (m !! a1) eqn:E1, (m !! a2) eqn:E2;
    rewrite ?E1, ?E2, ?lookup_insert_ne, ?E1, ?E2 by done; try done.
  by apply insert_insert_ne.
Qed.

(** X10: two registrations that differ in the event type or in the address
    of the callable give the same state in either order. *)
Theorem add_event_listener_commutes
    type1 (func1 : cref Callable) type2 (func2 : cref Callable) (w : world) :
  (type1, address func1) ≠ (type2, address func2) →
  (window.add_event_listener to_fn type1 func1
     (window.add_event_listener to_fn type2 func2 w).2).2
  = (window.add_event_listener to_fn type2 func2
       (window.add_event_listener to_fn type1 func1 w).2).2.
Proof.
  intros Hne.
  assert (Hadd : ∀ type (func : cref Callable) (w' : world),
            (window.add_event_listener to_fn type func w').2
            = window.set_events
                (partial_alter
                   (λ o, Some (umap_insert (address func)
                                 (to_fn (object func)) (default ∅ o)))
                   type (events_of w')) w').
  { intros type func w'. rewrite add_event_listener_unfold. cbn [snd].
    f_equal. apply map_eq. intros t.
    rewrite lookup_insert, lookup_partial_alter.
    by case_decide; subst. }
  rewrite !Hadd, !set_events_set_events.
  apply (f_equal (λ e, window.set_events e w)). cbn.
  rewrite partial_alter_partial_alter. case_decide as Ht; [| done].
  subst type2. rewrite (partial_alter_partial_alter _ _ _ type1 type1).
  rewrite decide_True by done. apply partial_alter_ext.
  intros o _. cbn. f_equal. apply umap_insert_commute. congruence.
Qed.

End registry_calls.

End window_calls.

(** ** The further properties on the test backend *)

#[local] Existing Instance fake.glfw.

Lemma add_event_listener_registers_witness :
  window.listener 3%N (address fake.quit) fake.w_zoom = None
  ∧ window.listener 3%N (address fake.quit)
      (window.add_event_listener id 3%N fake.quit fake.w_zoom).2
    = Some "quit".
Proof.
  split; [reflexivity |].
  apply (add_event_listener_registers id 3%N fake.quit fake.w_zoom).
  reflexivity.
Defined.

Lemma registry_calls_touch_one_entry_witness :
  (3%N, 4096%N) ≠ (3%N, address fake.quit)
  ∧ window.listener 3%N 4096%N
      (window.add_event_listener id 3%N fake.quit fake.w_zoom).2
    = window.listener 3%N 4096%N fake.w_zoom
  ∧ window.listener 3%N 4096%N
      (window.remove_event_listener 3%N fake.quit fake.w_zoom).2
    = window.listener 3%N 4096%N fake.w_zoom.
Proof.
  split; [discriminate |].
  apply (registry_calls_touch_one_entry id 3%N fake.quit fake.w_zoom
           3%N 4096%N).
  discriminate.
Defined.

Lemma add_then_remove_restores_witness :
  window.data.events (window.m_data (window.self fake.w_zoom)) !! 3%N
    = Some {[4096%N := "zoom"]}
  ∧ ({[4096%N := "zoom"]} : gmap N string) !! address fake.quit = None
  ∧ (window.remove_event_listener 3%N fake.quit
       (window.add_event_listener id 3%N fake.quit fake.w_zoom).2).2
    = fake.w_zoom.
Proof.
  split; [reflexivity |]. split; [reflexivity |].
  apply (add_then_remove_restores id 3%N fake.quit fake.w_zoom
           {[4096%N := "zoom"]}); reflexivity.
Defined.

Lemma first_listener_leaves_map_witness :
  window.data.events (window.m_data (window.self fake.w0)) !! 3%N = None
  ∧ window.data.events
      (window.m_data
         (window.self
            (window.remove_event_listener 3%N fake.zoom fake.w_zoom).2))
      !! 3%N = Some ∅.
Proof.
  split; [reflexivity |].
  apply (first_listener_leaves_map id 3%N fake.zoom fake.w0). reflexivity.
Defined.

Lemma add_event_listener_commutes_witness :
  (3%N, address fake.zoom) ≠ (3%N, address fake.quit)
  ∧ (window.add_event_listener id 3%N fake.zoom
       (window.add_event_listener id 3%N fake.quit fake.w0).2).2
    = (window.add_event_listener id 3%N fake.quit
         (window.add_event_listener id 3%N fake.zoom fake.w0).2).2.
Proof.
  split; [discriminate |].
  apply (add_event_listener_commutes id 3%N fake.zoom 3%N fake.quit fake.w0).
  discriminate.
Defined.

Lemma backend_calls_keep_window_witness :
  forallb (λ c, negb (calls.changes_window c)) fake.backend_calls = true
  ∧ window.self (calls.run id fake.backend_calls fake.w_zoom)
    = window.self fake.w_zoom
  ∧ window.keys (calls.run id fake.backend_calls fake.w_zoom)
    = window.keys fake.w_zoom.
Proof.
  split; [reflexivity |].
  apply (backend_calls_keep_window id fake.backend_calls fake.w_zoom).
  reflexivity.
Defined.

Lemma retained_keys_stay_valid_witness :
  window.retained_ok fake.w0
  ∧ window.retained_ok (calls.run id fake.key_calls fake.w0).
Proof.
  assert (H0 : window.retained_ok fake.w0)
    by (split; [apply NoDup_nil_2 | apply Forall_nil_2]).
  split; [exact H0 |].
  exact (retained_keys_stay_valid id fake.key_calls fake.w0 H0).
Defined.

Lemma str_determines_fields_witness :
  (window.str fake.w0).1 = (window.str fake.w_moved).1
  ∧ window.data.width (window.m_data (window.self fake.w0))
    = window.data.width (window.m_data (window.self fake.w_moved)).
Proof.
  split; [reflexivity |].
  apply (str_determines_fields fake.w0 fake.w_moved). reflexivity.
Defined.
